(** * http-client.py: a shallow embedding of the load generator

    The client keeps three global counters guarded by [stats_lock], a
    global [running] flag, an optional bounded [stats_queue], N worker
    threads, one reporter thread and a SIGINT handler.  Threads are
    interleaved at the granularity of the statements that touch shared
    state; each worker and the reporter is a program counter, and one
    [action] advances one thread by one statement.  Timestamps returned by
    [time.time()] and the float arithmetic of the reports are modelled with
    exact rationals [Q]. *)

From Stdlib Require Import ZArith QArith Qfield Lia.
From stdpp Require Import base list strings.

Open Scope Z_scope.

(** ** Data *)

(** What [session.get(url, timeout=timeout)] yields: a response with its
    status code, or a raised [requests.exceptions.RequestException]. *)
Inductive outcome :=
| Response (status_code : Z)
| RequestException.

(** [200 <= status_code < 400], line 36. *)
Definition is_success (status_code : Z) : bool :=
  (200 <=? status_code) && (status_code <? 400).

(** A detailed-stats record [(thread_id, status_code, time.time())]. *)
Record event := mkEvent {
  ev_thread_id : nat;
  ev_status_code : Z;
  ev_time : Q
}.

(** [queue.Queue(maxsize=10000)], line 113. *)
Definition queue_maxsize : nat := 10000.

(** Program counter of a [worker] thread (lines 28-49). *)
Inductive wpc :=
| WLoop                    (* while running: *)
| WGet                     (* response = session.get(...) *)
| WAcquire (o : outcome)   (* with stats_lock:  (either branch) *)
| WIncTotal (o : outcome)  (* total_requests += 1 *)
| WIncOutcome (o : outcome)(* successful_requests / failed_requests += 1 *)
| WRelease (o : outcome)   (* end of the with block *)
| WPut (status_code : Z)   (* stats_queue.put((thread_id, status_code, time.time())) *)
| WDone.                   (* the loop has exited *)

(** Program counter of the [stats_reporter] thread (lines 58-80). *)
Inductive rpc :=
| RLoop                              (* while running: *)
| RSleep                             (* time.sleep; current_time = time.time() *)
| RReadTotal (now : Q)               (* current_total = total_requests *)
| RReadSuccess (now : Q) (ct : nat)  (* successful_requests read at line 70 *)
| RDone.

(** Lines written to the console by the threads. *)
Inductive line :=
| ShutdownNotice
| StatsLine (current_total : nat) (rps total_rps success_rate : Q).

(** The process state of one run. *)
Record St := mkSt {
  total_requests : nat;
  successful_requests : nat;
  failed_requests : nat;
  stats_lock : option nat;          (* the thread holding the lock *)
  running : bool;
  start_time : Q;
  stats_queue : option (list event); (* None unless detailed *)
  workers : list wpc;               (* indexed by thread_id *)
  reporter : rpc;
  last_total : nat;                 (* reporter locals *)
  last_time : Q;
  console : list line
}.

(** ** State updates *)

Definition set_worker (tid : nat) (p : wpc) (s : St) : St :=
  mkSt s.(total_requests) s.(successful_requests) s.(failed_requests)
       s.(stats_lock) s.(running) s.(start_time) s.(stats_queue)
       (<[tid := p]> s.(workers)) s.(reporter) s.(last_total) s.(last_time)
       s.(console).

Definition set_lock (l : option nat) (s : St) : St :=
  mkSt s.(total_requests) s.(successful_requests) s.(failed_requests)
       l s.(running) s.(start_time) s.(stats_queue)
       s.(workers) s.(reporter) s.(last_total) s.(last_time) s.(console).

Definition set_counters (t su f : nat) (s : St) : St :=
  mkSt t su f
       s.(stats_lock) s.(running) s.(start_time) s.(stats_queue)
       s.(workers) s.(reporter) s.(last_total) s.(last_time) s.(console).

Definition set_queue (q : option (list event)) (s : St) : St :=
  mkSt s.(total_requests) s.(successful_requests) s.(failed_requests)
       s.(stats_lock) s.(running) s.(start_time) q
       s.(workers) s.(reporter) s.(last_total) s.(last_time) s.(console).

Definition set_reporter (r : rpc) (s : St) : St :=
  mkSt s.(total_requests) s.(successful_requests) s.(failed_requests)
       s.(stats_lock) s.(running) s.(start_time) s.(stats_queue)
       s.(workers) r s.(last_total) s.(last_time) s.(console).

(** ** The worker thread, lines 28-49 *)

(** The second update of the [with] block: lines 36-39 after a response,
    line 49 in the [except] branch. *)
Definition count_outcome (o : outcome) (s : St) : St :=
  match o with
  | Response status_code =>
      if is_success status_code
      then set_counters s.(total_requests) (S s.(successful_requests))
             s.(failed_requests) s
      else set_counters s.(total_requests) s.(successful_requests)
             (S s.(failed_requests)) s
  | RequestException =>
      set_counters s.(total_requests) s.(successful_requests)
        (S s.(failed_requests)) s
  end.

Definition after_release (stats_queue : option (list event)) (o : outcome) : wpc :=
  match o with
  | Response status_code =>
      match stats_queue with
      | Some _ => WPut status_code   (* if stats_queue is not None *)
      | None => WLoop
      end
  | RequestException => WLoop        (* the except branch ends the iteration *)
  end.

(** One call advances thread [tid] by one statement.  [o] is what the
    network returns if the statement is the request, [t] what [time.time()]
    returns if it is the queue put; the other statements ignore them.
    [None] means the thread cannot move: it has exited, the lock is held
    by another thread, or the bounded queue is full ([Queue.put] blocks). *)
Definition worker_step (tid : nat) (o : outcome) (t : Q) (s : St) : option St :=
  match s.(workers) !! tid with
  | Some WLoop =>
      Some (set_worker tid (if s.(running) then WGet else WDone) s)
  | Some WGet => Some (set_worker tid (WAcquire o) s)
  | Some (WAcquire o') =>
      match s.(stats_lock) with
      | None => Some (set_worker tid (WIncTotal o') (set_lock (Some tid) s))
      | Some _ => None
      end
  | Some (WIncTotal o') =>
      Some (set_worker tid (WIncOutcome o')
              (set_counters (S s.(total_requests)) s.(successful_requests)
                 s.(failed_requests) s))
  | Some (WIncOutcome o') => Some (set_worker tid (WRelease o') (count_outcome o' s))
  | Some (WRelease o') =>
      Some (set_worker tid (after_release s.(stats_queue) o') (set_lock None s))
  | Some (WPut status_code) =>
      match s.(stats_queue) with
      | Some q =>
          if (length q <? queue_maxsize)%nat
          then Some (set_worker tid WLoop
                       (set_queue (Some (q ++ [mkEvent tid status_code t])) s))
          else None
      | None => None
      end
  | Some WDone | None => None
  end.

(** ** The reporter thread, lines 51-80 *)

(** Python's [a > b] on floats. *)
Definition py_gt (a b : Q) : bool := negb (Qle_bool a b).

(** The three values printed by one tick, lines 63-70:
    [(rps, total_rps, success_rate)]. *)
Definition stats_tick (start_t : Q) (last_tot : nat) (last_t now : Q)
    (current_total successful : nat) : Q * Q * Q :=
  let elapsed := (now - last_t)%Q in
  let requests_since_last := (Z.of_nat current_total - Z.of_nat last_tot)%Z in
  let rps := if py_gt elapsed 0 then (inject_Z requests_since_last / elapsed)%Q
             else 0%Q in
  let total_elapsed := (now - start_t)%Q in
  let total_rps := if py_gt total_elapsed 0
                   then (inject_Z (Z.of_nat current_total) / total_elapsed)%Q
                   else 0%Q in
  let success_rate := if (0 <? current_total)%nat
                      then (inject_Z (Z.of_nat successful)
                              / inject_Z (Z.of_nat current_total) * 100)%Q
                      else 0%Q in
  (rps, total_rps, success_rate).

(** One statement of the reporter; [now] is what [time.time()] returns if
    the statement reads the clock.  The counters are read without taking
    [stats_lock]: [total_requests] at line 61 and [successful_requests] at
    line 70 are two separate reads. *)
Definition reporter_step (now : Q) (s : St) : option St :=
  match s.(reporter) with
  | RLoop => Some (set_reporter (if s.(running) then RSleep else RDone) s)
  | RSleep => Some (set_reporter (RReadTotal now) s)
  | RReadTotal now' =>
      Some (set_reporter (RReadSuccess now' s.(total_requests)) s)
  | RReadSuccess now' ct =>
      let '(rps, total_rps, success_rate) :=
        stats_tick s.(start_time) s.(last_total) s.(last_time) now' ct
          s.(successful_requests) in
      Some (mkSt s.(total_requests) s.(successful_requests) s.(failed_requests)
              s.(stats_lock) s.(running) s.(start_time) s.(stats_queue)
              s.(workers) RLoop ct now'
              (s.(console) ++ [StatsLine ct rps total_rps success_rate]))
  | RDone => None
  end.

(** ** The SIGINT handler, lines 82-86 *)
Definition handle_sigint (s : St) : St :=
  mkSt s.(total_requests) s.(successful_requests) s.(failed_requests)
       s.(stats_lock) false s.(start_time) s.(stats_queue)
       s.(workers) s.(reporter) s.(last_total) s.(last_time)
       (s.(console) ++ [ShutdownNotice]).

(** ** Interleavings *)

Inductive action :=
| AWorker (tid : nat) (o : outcome) (t : Q)
| AReporter (now : Q)
| ASigint.

Definition step (a : action) (s : St) : option St :=
  match a with
  | AWorker tid o t => worker_step tid o t s
  | AReporter now => reporter_step now s
  | ASigint => Some (handle_sigint s)
  end.

Fixpoint run (acts : list action) (s : St) : option St :=
  match acts with
  | [] => Some s
  | a :: acts' => match step a s with
                  | Some s' => run acts' s'
                  | None => None
                  end
  end.

(** The state right after [send_load] has reset the counters, set
    [running], recorded [start_time] ([t0]), created the queue and
    started the reporter (whose [last_time] is [t1]) and [threads]
    workers, lines 102-130. *)
Definition send_load_init (threads : nat) (detailed : bool) (t0 t1 : Q) : St :=
  mkSt 0 0 0 None true t0 (if detailed then Some [] else None)
       (replicate threads WLoop) RLoop 0 t1 [].

(** ** The final report, lines 143-153 *)

Inductive py_exn := ZeroDivisionError.

Inductive pyres (A : Type) :=
| POk (a : A)
| PExc (e : py_exn).
Arguments POk {A} a.
Arguments PExc {A} e.

Definition py_bind {A B} (r : pyres A) (k : A -> pyres B) : pyres B :=
  match r with POk a => k a | PExc e => PExc e end.

(** Python's true division [a / b]: raises on a zero divisor. *)
Definition py_div (a b : Q) : pyres Q :=
  if Qeq_bool b 0 then PExc ZeroDivisionError else POk (a / b)%Q.

Record final_results := mkFinal {
  fr_total : nat;
  fr_successful : nat;
  fr_success_pct : Q;
  fr_failed : nat;
  fr_fail_pct : Q;
  fr_total_time : Q;
  fr_final_rps : Q
}.

Definition final_report (s : St) (end_time : Q) : pyres final_results :=
  let total_time := (end_time - s.(start_time))%Q in
  let tot := inject_Z (Z.of_nat s.(total_requests)) in
  let final_rps := if py_gt total_time 0 then (tot / total_time)%Q else 0%Q in
  py_bind (py_div (inject_Z (Z.of_nat s.(successful_requests))) tot) (fun ps =>
  py_bind (py_div (inject_Z (Z.of_nat s.(failed_requests))) tot) (fun pf =>
  POk (mkFinal s.(total_requests) s.(successful_requests) (ps * 100)%Q
               s.(failed_requests) (pf * 100)%Q total_time final_rps))).

(** ** Reachability and the lock discipline *)

(** The states of a run: what interleavings of the threads reach from the
    state [send_load] sets up. *)
Definition reachable (s : St) : Prop :=
  exists threads detailed t0 t1 acts,
    run acts (send_load_init threads detailed t0 t1) = Some s.

(** A worker is inside [with stats_lock:]. *)
Definition in_cs (p : wpc) : bool :=
  match p with
  | WIncTotal _ | WIncOutcome _ | WRelease _ => true
  | _ => false
  end.

(** 1 when the lock holder has bumped [total_requests] but not yet the
    outcome counter, 0 otherwise. *)
Definition pending (s : St) : nat :=
  match s.(stats_lock) with
  | Some i => match s.(workers) !! i with
              | Some (WIncOutcome _) => 1
              | _ => 0
              end
  | None => 0
  end.

(** Only the holder of [stats_lock] is inside the critical section, the
    holder is inside it, and the counters agree up to the holder's
    unfinished update. *)
Definition lock_inv (s : St) : Prop :=
  (forall i p, s.(workers) !! i = Some p -> in_cs p = true ->
               s.(stats_lock) = Some i) /\
  (forall i, s.(stats_lock) = Some i ->
             exists p, s.(workers) !! i = Some p /\ in_cs p = true) /\
  (s.(total_requests) = s.(successful_requests) + s.(failed_requests)
                        + pending s)%nat.

(** ** The reporter's remembered total *)

(** The total the reporter has read and not yet printed is never larger
    than the current [total_requests]. *)
Definition reporter_inv (s : St) : Prop :=
  forall now ct, s.(reporter) = RReadSuccess now ct ->
                 (ct <= s.(total_requests))%nat.

(** ** Concrete runs *)

(** One loop iteration of a worker in detailed mode that gets a response:
    seven statements, the last one the queue put. *)
Definition response_iteration (tid : nat) (status_code : Z) (t : Q) : list action :=
  repeat (AWorker tid (Response status_code) t) 7.

(** A single worker in detailed mode that has had [n] responses with
    status 200, all at time 0, and is back at its loop head. *)
Definition filled_state (n : nat) : St :=
  mkSt n n 0 None true 0 (Some (repeat (mkEvent 0 200 0) n))
       [WLoop] RLoop 0 0 [].

(** [queue_maxsize] such iterations, then the next response up to its put. *)
Definition stalled_acts : list action :=
  concat (repeat (response_iteration 0 200 0) queue_maxsize)
  ++ repeat (AWorker 0 (Response 200) 0) 6.

(** Worker 0 counts one request, then the reporter reads [total_requests];
    worker 0 counts a second one before the reporter reads
    [successful_requests]. *)
Definition torn_read_acts : list action :=
  repeat (AWorker 0 (Response 200) 0) 6
  ++ [AReporter 0; AReporter 1; AReporter 1]
  ++ repeat (AWorker 0 (Response 200) 0) 6
  ++ [AReporter 1].

(** Worker 0 of a fresh detailed run, about to put an event for a 500. *)
Definition put_ready_state : St :=
  set_worker 0 (WPut 500) (send_load_init 1 true 0 0).

(** The reporter of a fresh run, started at time 1, has read a total of 4
    at time 3 and is about to read [successful_requests]. *)
Definition tick_ready_state : St :=
  set_reporter (RReadSuccess 3 4) (send_load_init 1 false 0 1).

(** ** Counting threads by program counter *)

(** The number of workers whose program counter satisfies [f]. *)
Fixpoint count_pc (f : wpc -> bool) (ws : list wpc) : nat :=
  match ws with
  | [] => 0
  | p :: ws' => ((if f p then 1 else 0) + count_pc f ws')%nat
  end.

(** A worker past [while running] (line 28) that has not yet executed
    [total_requests += 1]. *)
Definition before_count (p : wpc) : bool :=
  match p with
  | WGet | WAcquire _ | WIncTotal _ => true
  | _ => false
  end.

Definition in_flight (s : St) : nat := count_pc before_count s.(workers).

(** A worker that has counted a response and has not yet reached the end
    of its iteration: the put at line 43 may still be ahead of it. *)
Definition owes_event (p : wpc) : bool :=
  match p with
  | WIncOutcome (Response _) | WRelease (Response _) | WPut _ => true
  | _ => false
  end.

(** The number of status lines (line 80) on the console. *)
Fixpoint stats_lines (c : list line) : nat :=
  match c with
  | [] => 0
  | StatsLine _ _ _ _ :: c' => S (stats_lines c')
  | ShutdownNotice :: c' => stats_lines c'
  end.

(** 1 while the reporter is inside a tick (past [while running], line 58,
    and before its print), 0 otherwise. *)
Definition reporter_in_tick (r : rpc) : nat :=
  match r with
  | RSleep | RReadTotal _ | RReadSuccess _ _ => 1
  | _ => 0
  end.

(** The three numbers of a status line are not negative. *)
Definition line_nonneg (l : line) : Prop :=
  match l with
  | StatsLine _ rps total_rps success_rate =>
      (0 <= rps /\ 0 <= total_rps /\ 0 <= success_rate)%Q
  | ShutdownNotice => True
  end.

(** * http-server.py: the request handler

    [do_GET] (lines 7-32) with its inputs made explicit: the client's
    address [self.client_address[0]], the request path [self.path], the
    formatted local time and [socket.gethostname()].  It returns the line
    it prints and what it sends: the status, the headers it sets itself
    ([send_response] also adds [Server] and [Date]), and the body, which is
    written UTF-8 encoded. *)

Record http_response := mkResponse {
  resp_status : Z;
  resp_headers : list (string * string);
  resp_body : string
}.

Definition nl : string := String (Ascii.ascii_of_nat 10) EmptyString.

(** Line 11. *)
Definition do_GET_log (client_ip current_time path : string) : string :=
  ("[" +:+ current_time +:+ "] Received request from " +:+ client_ip
   +:+ " - Path: " +:+ path)%string.

(** Lines 17-30. *)
Definition do_GET_body (client_ip path current_time hostname : string) : string :=
  (nl
   +:+ "        <html>" +:+ nl
   +:+ "        <head>" +:+ nl
   +:+ "            <title>Simple HTTP Server</title>" +:+ nl
   +:+ "        </head>" +:+ nl
   +:+ "        <body>" +:+ nl
   +:+ "            <h1>Hello from the Server!</h1>" +:+ nl
   +:+ "            <p>Your IP: " +:+ client_ip +:+ "</p>" +:+ nl
   +:+ "            <p>Requested path: " +:+ path +:+ "</p>" +:+ nl
   +:+ "            <p>Server time: " +:+ current_time +:+ "</p>" +:+ nl
   +:+ "            <p>Server hostname: " +:+ hostname +:+ "</p>" +:+ nl
   +:+ "        </body>" +:+ nl
   +:+ "        </html>" +:+ nl
   +:+ "        ")%string.

Definition do_GET (client_ip path current_time hostname : string)
    : string * http_response :=
  (do_GET_log client_ip current_time path,
   mkResponse 200 [("Content-type", "text/html")%string]
     (do_GET_body client_ip path current_time hostname)).

(** ** The client against this server *)

(** A worker action whose network is the server above: a request returns
    what [do_GET] sends, for some client address, path, time and host. *)
Definition served_by_do_GET (a : action) : Prop :=
  match a with
  | AWorker _ o _ =>
      exists client_ip path current_time hostname,
        o = Response (snd (do_GET client_ip path current_time hostname)).(resp_status)
  | AReporter _ | ASigint => True
  end.

(** The outcome a worker carries is a response counted as a success. *)
Definition outcome_succeeds (o : outcome) : bool :=
  match o with
  | Response status_code => is_success status_code
  | RequestException => false
  end.

Definition pc_succeeds (p : wpc) : bool :=
  match p with
  | WAcquire o | WIncTotal o | WIncOutcome o | WRelease o => outcome_succeeds o
  | _ => true
  end.

(** ** Invariants of the further properties *)

(** Each event on the queue has been counted in [total_requests], and so
    has the event each worker still owes. *)
Definition queue_counted (s : St) : Prop :=
  match s.(stats_queue) with
  | Some q => (length q + count_pc owes_event s.(workers) <= s.(total_requests))%nat
  | None => True
  end.

(** The reporter's remembered total is at most the total it reads next, and
    every status line printed so far is non-negative. *)
Definition printed_inv (s : St) : Prop :=
  (s.(last_total) <= s.(total_requests))%nat /\
  (forall now ct, s.(reporter) = RReadSuccess now ct ->
                  (s.(last_total) <= ct <= s.(total_requests))%nat) /\
  Forall line_nonneg s.(console).

(** No failure counted, and every worker carries a successful outcome. *)
Definition served_inv (s : St) : Prop :=
  s.(failed_requests) = 0%nat /\
  Forall (fun p => pc_succeeds p = true) s.(workers).

(** * Proofs *)

(** ** Lookups in the worker table *)

Lemma set_worker_lookup_eq s tid p p' :
  s.(workers) !! tid = Some p -> (set_worker tid p' s).(workers) !! tid = Some p'.
Proof.
  intros H. simpl. apply list_lookup_insert_eq. eapply lookup_lt_Some; eauto.
Qed.

Lemma set_worker_lookup_ne s tid j p' :
  j <> tid -> (set_worker tid p' s).(workers) !! j = s.(workers) !! j.
Proof. intros H. simpl. apply list_lookup_insert_ne. congruence. Qed.

(** [lock_inv] only looks at the workers, the lock and the counters. *)
Lemma lock_inv_ext s s' :
  s'.(workers) = s.(workers) -> s'.(stats_lock) = s.(stats_lock) ->
  s'.(total_requests) = s.(total_requests) ->
  s'.(successful_requests) = s.(successful_requests) ->
  s'.(failed_requests) = s.(failed_requests) ->
  lock_inv s -> lock_inv s'.
Proof.
  intros Hw Hl Ht Hs Hf. unfold lock_inv, pending.
  rewrite Hw, Hl, Ht, Hs, Hf. exact id.
Qed.

(** Moving a worker between two statements outside the critical section. *)
Lemma lock_inv_outside s tid p p' :
  lock_inv s -> s.(workers) !! tid = Some p -> in_cs p = false ->
  in_cs p' = false -> lock_inv (set_worker tid p' s).
Proof.
  intros [H1 [H2 H3]] Hl Hp Hp'.
  assert (Hne : forall i, s.(stats_lock) = Some i -> i <> tid).
  { intros i Hi ->. destruct (H2 _ Hi) as [q [Hq Hcs]]. congruence. }
  split; [|split].
  - intros i q Hq Hcs. simpl.
    destruct (decide (i = tid)) as [->|Hi].
    + erewrite set_worker_lookup_eq in Hq by eauto. congruence.
    + rewrite set_worker_lookup_ne in Hq by auto. eauto.
  - intros i Hi. simpl in Hi. rewrite set_worker_lookup_ne by (apply Hne; auto).
    auto.
  - unfold pending in *. simpl. rewrite H3.
    destruct (stats_lock s) as [i|] eqn:E; [|reflexivity].
    rewrite list_lookup_insert_ne; [reflexivity|].
    intros Heq. apply (Hne i eq_refl). congruence.
Qed.

Lemma lock_inv_init threads detailed t0 t1 :
  lock_inv (send_load_init threads detailed t0 t1).
Proof.
  split; [|split]; simpl.
  - intros i p Hp Hcs. apply lookup_replicate in Hp as [-> _]. discriminate.
  - intros i Hi. discriminate.
  - reflexivity.
Qed.

Ltac lookups :=
  repeat first
    [ rewrite list_lookup_insert_eq by (eapply lookup_lt_Some; eauto)
    | rewrite list_lookup_insert_ne by congruence ].

(** The lock holder's statements. *)
Lemma lock_inv_worker_step s tid o t s' :
  lock_inv s -> worker_step tid o t s = Some s' -> lock_inv s'.
Proof.
  intros Hinv Hstep. pose proof Hinv as [H1 [H2 H3]].
  unfold worker_step in Hstep.
  destruct (workers s !! tid) as [p|] eqn:Hl; [|discriminate].
  destruct p as [| |o'|o'|o'|o'|c|]; try discriminate.
  - injection Hstep as <-. eapply lock_inv_outside; eauto.
    destruct (running s); reflexivity.
  - injection Hstep as <-. eapply lock_inv_outside; eauto.
  - destruct (stats_lock s) as [k|] eqn:Hk; [discriminate|].
    injection Hstep as <-. split; [|split]; simpl.
    + intros i q Hq Hcs. destruct (decide (i = tid)) as [->|Hi]; [reflexivity|].
      rewrite list_lookup_insert_ne in Hq by congruence.
      specialize (H1 _ _ Hq Hcs). congruence.
    + intros i [= <-]. exists (WIncTotal o'); split; [|reflexivity]. lookups. reflexivity.
    + unfold pending in *. simpl. rewrite Hk in H3. lookups. exact H3.
  - specialize (H1 _ _ Hl eq_refl) as Hk.
    injection Hstep as <-. split; [|split]; simpl.
    + intros i q Hq Hcs. destruct (decide (i = tid)) as [->|Hi]; [exact Hk|].
      rewrite list_lookup_insert_ne in Hq by congruence. eauto.
    + intros i Hi. rewrite Hk in Hi. injection Hi as <-.
      exists (WIncOutcome o'); split; [|reflexivity]. lookups. reflexivity.
    + unfold pending in *. simpl. rewrite Hk in *. rewrite Hl in H3.
      lookups. lia.
  - specialize (H1 _ _ Hl eq_refl) as Hk.
    injection Hstep as <-.
    assert (Hc : forall s0 : St, s0.(stats_lock) = Some tid ->
              s0.(workers) = s.(workers) ->
              (s0.(total_requests) = s0.(successful_requests)
                                     + s0.(failed_requests))%nat ->
              lock_inv (set_worker tid (WRelease o') s0)).
    { intros s0 Hk0 Hw0 Ht0. split; [|split]; simpl.
      - intros i q Hq Hcs. destruct (decide (i = tid)) as [->|Hi]; [exact Hk0|].
        rewrite list_lookup_insert_ne in Hq by congruence. rewrite Hw0 in Hq.
        rewrite Hk0, <- Hk. eauto.
      - intros i Hi. rewrite Hk0 in Hi. injection Hi as <-.
        exists (WRelease o'); split; [|reflexivity]. rewrite Hw0. lookups. reflexivity.
      - unfold pending. simpl. rewrite Hk0, Hw0. lookups. lia. }
    unfold pending in H3. rewrite Hk, Hl in H3. unfold count_outcome.
    destruct o' as [c|]; [destruct (is_success c)|];
      apply Hc; simpl; auto; lia.
  - specialize (H1 _ _ Hl eq_refl) as Hk.
    injection Hstep as <-. split; [|split]; simpl.
    + intros i q Hq Hcs. destruct (decide (i = tid)) as [->|Hi].
      * lookups. rewrite list_lookup_insert_eq in Hq by (eapply lookup_lt_Some; eauto).
        injection Hq as <-. unfold after_release in Hcs.
        destruct o' as [c|]; [destruct (stats_queue s)|]; discriminate.
      * rewrite list_lookup_insert_ne in Hq by congruence.
        specialize (H1 _ _ Hq Hcs). congruence.
    + intros i Hi. discriminate.
    + unfold pending in *. simpl. rewrite Hk, Hl in H3. lia.
  - destruct (stats_queue s) as [q|]; [|discriminate].
    destruct (length q <? queue_maxsize)%nat; [|discriminate].
    injection Hstep as <-.
    apply (lock_inv_ext (set_worker tid WLoop s)); try reflexivity.
    eapply lock_inv_outside; eauto.
Qed.

(** The reporter and the SIGINT handler write neither the counters, nor the
    lock, nor the workers. *)
Lemma reporter_step_frame now s s' :
  reporter_step now s = Some s' ->
  s'.(workers) = s.(workers) /\ s'.(stats_lock) = s.(stats_lock) /\
  s'.(total_requests) = s.(total_requests) /\
  s'.(successful_requests) = s.(successful_requests) /\
  s'.(failed_requests) = s.(failed_requests) /\
  s'.(stats_queue) = s.(stats_queue).
Proof.
  unfold reporter_step. destruct (reporter s); try discriminate;
    intros [= <-]; simpl; repeat split.
Qed.

Lemma lock_inv_step a s s' :
  lock_inv s -> step a s = Some s' -> lock_inv s'.
Proof.
  intros Hinv. destruct a as [tid o t|now|]; simpl.
  - apply lock_inv_worker_step; auto.
  - intros Hr. apply reporter_step_frame in Hr as (? & ? & ? & ? & ? & _).
    eapply lock_inv_ext; eauto.
  - intros [= <-]. eapply lock_inv_ext; eauto.
Qed.

Lemma lock_inv_run acts s s' :
  lock_inv s -> run acts s = Some s' -> lock_inv s'.
Proof.
  revert s. induction acts as [|a acts IH]; simpl; intros s Hinv Hrun.
  - congruence.
  - destruct (step a s) as [s1|] eqn:E; [|discriminate].
    eapply IH; [eapply lock_inv_step|]; eauto.
Qed.

Lemma lock_inv_reachable s : reachable s -> lock_inv s.
Proof.
  intros (threads & detailed & t0 & t1 & acts & Hrun).
  eapply lock_inv_run; [apply lock_inv_init|exact Hrun].
Qed.

Lemma pending_le_1 s : (pending s <= 1)%nat.
Proof.
  unfold pending. destruct (stats_lock s); [|lia].
  destruct (workers s !! _) as [[]|]; lia.
Qed.

(** ** One iteration of the worker loop

    From the loop head, with [running] set and the lock free, the worker
    runs [while running], the request, and the whole [with stats_lock:]
    block in six statements. *)
(** Two states are equal when all their fields are. *)
Lemma St_ext s1 s2 :
  s1.(total_requests) = s2.(total_requests) ->
  s1.(successful_requests) = s2.(successful_requests) ->
  s1.(failed_requests) = s2.(failed_requests) ->
  s1.(stats_lock) = s2.(stats_lock) -> s1.(running) = s2.(running) ->
  s1.(start_time) = s2.(start_time) -> s1.(stats_queue) = s2.(stats_queue) ->
  s1.(workers) = s2.(workers) -> s1.(reporter) = s2.(reporter) ->
  s1.(last_total) = s2.(last_total) -> s1.(last_time) = s2.(last_time) ->
  s1.(console) = s2.(console) -> s1 = s2.
Proof.
  destruct s1, s2; simpl; intros; subst; reflexivity.
Qed.

Lemma run_step a acts s s1 :
  step a s = Some s1 -> run (a :: acts) s = run acts s1.
Proof. intros H. simpl. rewrite H. reflexivity. Qed.

Lemma worker_iteration s tid o t :
  s.(workers) !! tid = Some WLoop -> s.(running) = true ->
  s.(stats_lock) = None ->
  run (repeat (AWorker tid o t) 6) s =
  Some (set_worker tid (after_release s.(stats_queue) o)
          (set_counters (S s.(total_requests))
             (match o with
              | Response c => if is_success c then S s.(successful_requests)
                              else s.(successful_requests)
              | RequestException => s.(successful_requests)
              end)
             (match o with
              | Response c => if is_success c then s.(failed_requests)
                              else S s.(failed_requests)
              | RequestException => S s.(failed_requests)
              end) s)).
Proof.
  intros Hl Hr Hk.
  assert (Hlt : (tid < length (workers s))%nat) by (eapply lookup_lt_Some; eauto).
  set (a := AWorker tid o t).
  change (repeat a 6) with [a; a; a; a; a; a].
  erewrite run_step by (simpl; unfold worker_step; rewrite Hl, Hr; reflexivity).
  erewrite run_step by (simpl; unfold worker_step; simpl;
                        rewrite list_lookup_insert_eq by lia; reflexivity).
  erewrite run_step by (simpl; unfold worker_step; simpl;
                        rewrite list_lookup_insert_eq by (rewrite length_insert; lia);
                        rewrite Hk; reflexivity).
  erewrite run_step by (simpl; unfold worker_step; simpl;
                        rewrite list_lookup_insert_eq by (rewrite !length_insert; lia);
                        reflexivity).
  erewrite run_step by (simpl; unfold worker_step; simpl;
                        rewrite list_lookup_insert_eq by (rewrite !length_insert; lia);
                        reflexivity).
  erewrite run_step.
  2:{ simpl. unfold worker_step.
      assert (E : workers (count_outcome o
                   (set_worker tid (WIncOutcome o)
                      (set_counters (S (total_requests s)) (successful_requests s)
                         (failed_requests s)
                         (set_worker tid (WIncTotal o)
                            (set_lock (Some tid)
                               (set_worker tid (WAcquire o) (set_worker tid WGet s)))))))
                  = <[tid:=WIncOutcome o]> (<[tid:=WIncTotal o]>
                      (<[tid:=WAcquire o]> (<[tid:=WGet]> (workers s))))).
      { unfold count_outcome. destruct o as [c|]; [destruct (is_success c)|];
          reflexivity. }
      simpl. rewrite list_lookup_insert_eq by (rewrite E, !length_insert; lia).
      reflexivity. }
  simpl. f_equal.
  destruct o as [c|]; [destruct (is_success c) eqn:E|]; unfold count_outcome;
    try rewrite E; apply St_ext; simpl; try reflexivity;
    first [ rewrite Hk; reflexivity
          | rewrite !list_insert_insert_eq; reflexivity ].
Qed.

(** ** What one statement may change *)

Lemma step_counters_mono a s s' :
  step a s = Some s' ->
  (s.(total_requests) <= s'.(total_requests) /\
   s.(successful_requests) <= s'.(successful_requests) /\
   s.(failed_requests) <= s'.(failed_requests))%nat.
Proof.
  destruct a as [tid o t|now|]; simpl.
  - unfold worker_step.
    destruct (workers s !! tid) as [[| |o'|o'|o'|o'|c|]|]; try discriminate.
    + intros [= <-]. simpl. lia.
    + intros [= <-]. simpl. lia.
    + destruct (stats_lock s); [discriminate|]. intros [= <-]. simpl. lia.
    + intros [= <-]. simpl. lia.
    + intros [= <-]. unfold count_outcome.
      destruct o' as [c|]; [destruct (is_success c)|]; simpl; lia.
    + intros [= <-]. simpl. lia.
    + destruct (stats_queue s) as [q|]; [|discriminate].
      destruct (length q <? queue_maxsize)%nat; [|discriminate].
      intros [= <-]. simpl. lia.
  - intros Hr. apply reporter_step_frame in Hr as (_ & _ & -> & -> & -> & _). lia.
  - intros [= <-]. simpl. lia.
Qed.

Lemma run_counters_mono acts s s' :
  run acts s = Some s' ->
  (s.(total_requests) <= s'.(total_requests) /\
   s.(successful_requests) <= s'.(successful_requests) /\
   s.(failed_requests) <= s'.(failed_requests))%nat.
Proof.
  revert s. induction acts as [|a acts IH]; simpl; intros s Hrun.
  - injection Hrun as <-. lia.
  - destruct (step a s) as [s1|] eqn:E; [|discriminate].
    apply step_counters_mono in E. apply IH in Hrun. lia.
Qed.

(** A worker statement changes only its own program counter, and the
    queue only by appending its own event to a queue that is not full. *)
Lemma worker_step_frame tid o t s s' :
  worker_step tid o t s = Some s' ->
  (forall j, j <> tid -> s'.(workers) !! j = s.(workers) !! j) /\
  s'.(reporter) = s.(reporter) /\
  (s'.(stats_queue) = s.(stats_queue) \/
   exists q c, s.(stats_queue) = Some q /\ (length q < queue_maxsize)%nat /\
               s'.(stats_queue) = Some (q ++ [mkEvent tid c t])).
Proof.
  unfold worker_step.
  destruct (workers s !! tid) as [[| |o'|o'|o'|o'|c|]|]; try discriminate;
    try (intros [= <-]; split; [intros j Hj; rewrite set_worker_lookup_ne by auto; reflexivity|];
         split; [reflexivity|left; reflexivity]).
  - destruct (stats_lock s); [discriminate|]. intros [= <-].
    split; [intros j Hj; rewrite set_worker_lookup_ne by auto; reflexivity|].
    split; [reflexivity|left; reflexivity].
  - intros [= <-]. unfold count_outcome.
    destruct o' as [c|]; [destruct (is_success c)|];
      (split; [intros j Hj; rewrite set_worker_lookup_ne by auto; reflexivity|];
       split; [reflexivity|left; reflexivity]).
  - destruct (stats_queue s) as [q|] eqn:Eq; [|discriminate].
    destruct (length q <? queue_maxsize)%nat eqn:Elt; [|discriminate].
    intros [= <-]. split; [intros j Hj; rewrite set_worker_lookup_ne by auto; reflexivity|].
    split; [reflexivity|]. right. exists q, c. split; [reflexivity|].
    split; [apply Nat.ltb_lt; exact Elt|reflexivity].
Qed.

(** ** The queue put *)

Lemma worker_put_step s tid c o t q :
  s.(workers) !! tid = Some (WPut c) -> s.(stats_queue) = Some q ->
  (length q < queue_maxsize)%nat ->
  step (AWorker tid o t) s =
  Some (set_worker tid WLoop (set_queue (Some (q ++ [mkEvent tid c t])) s)).
Proof.
  intros Hl Hq Hlt. simpl. unfold worker_step. rewrite Hl, Hq.
  apply Nat.ltb_lt in Hlt. rewrite Hlt. reflexivity.
Qed.

(** Nothing in the client ever takes from [stats_queue]: once it is full,
    a worker at its put never moves again and the queue stays as it is. *)
Lemma put_blocked_run acts s s' tid c q :
  s.(workers) !! tid = Some (WPut c) -> s.(stats_queue) = Some q ->
  (queue_maxsize <= length q)%nat ->
  run acts s = Some s' ->
  s'.(workers) !! tid = Some (WPut c) /\ s'.(stats_queue) = Some q.
Proof.
  intros Hl Hq Hfull. revert s Hl Hq.
  induction acts as [|a acts IH]; simpl; intros s Hl Hq Hrun.
  - injection Hrun as <-. auto.
  - destruct (step a s) as [s1|] eqn:E; [|discriminate].
    apply (IH s1); [| |exact Hrun].
    + destruct a as [tid' o t|now|]; simpl in E.
      * destruct (decide (tid' = tid)) as [->|Hne].
        { unfold worker_step in E. rewrite Hl, Hq in E.
          apply Nat.ltb_ge in Hfull. rewrite Hfull in E. discriminate. }
        apply worker_step_frame in E as [Hw _]. rewrite Hw by auto. exact Hl.
      * apply reporter_step_frame in E as (-> & _). exact Hl.
      * injection E as <-. exact Hl.
    + destruct a as [tid' o t|now|]; simpl in E.
      * apply worker_step_frame in E as (_ & _ & [-> | (q' & c' & Hq' & Hlt & _)]);
          [exact Hq|]. rewrite Hq in Hq'. injection Hq' as <-. lia.
      * apply reporter_step_frame in E as (_ & _ & _ & _ & _ & ->). exact Hq.
      * injection E as <-. exact Hq.
Qed.

Lemma reporter_inv_step a s s' :
  reporter_inv s -> step a s = Some s' -> reporter_inv s'.
Proof.
  intros Hinv Hstep. pose proof (step_counters_mono _ _ _ Hstep) as [Ht _].
  intros now ct Hr.
  destruct a as [tid o t|now'|]; simpl in Hstep.
  - apply worker_step_frame in Hstep as (_ & Hrep & _).
    rewrite Hrep in Hr. specialize (Hinv _ _ Hr). lia.
  - pose proof Hstep as Hf. apply reporter_step_frame in Hf as (_ & _ & Ht' & _).
    unfold reporter_step in Hstep.
    destruct (reporter s) eqn:Er; try discriminate; injection Hstep as <-;
      simpl in Hr; try discriminate.
    + destruct (running s); discriminate.
    + injection Hr as _ Hct. subst ct. simpl. lia.
  - injection Hstep as <-. simpl in *. eauto.
Qed.

Lemma reporter_inv_reachable s : reachable s -> reporter_inv s.
Proof.
  intros (threads & detailed & t0 & t1 & acts & Hrun).
  assert (H0 : reporter_inv (send_load_init threads detailed t0 t1))
    by (intros now ct Hr; discriminate).
  revert Hrun H0. generalize (send_load_init threads detailed t0 t1).
  induction acts as [|a acts IH]; simpl; intros s0 Hrun H0.
  - injection Hrun as <-. exact H0.
  - destruct (step a s0) as [s1|] eqn:E; [|discriminate].
    eapply IH; [exact Hrun|]. eapply reporter_inv_step; eauto.
Qed.

(** ** Sequencing runs *)

Lemma run_app acts1 acts2 s :
  run (acts1 ++ acts2) s =
  match run acts1 s with Some s' => run acts2 s' | None => None end.
Proof.
  revert s. induction acts1 as [|a acts1 IH]; simpl; intros s; [reflexivity|].
  destruct (step a s); [apply IH|reflexivity].
Qed.

Lemma repeat_snoc {A} (x : A) n : repeat x n ++ [x] = repeat x (S n).
Proof. induction n as [|n IH]; simpl; [reflexivity|]. now rewrite IH. Qed.

Lemma response_iteration_filled k :
  (k < queue_maxsize)%nat ->
  run (response_iteration 0 200 0) (filled_state k) = Some (filled_state (S k)).
Proof.
  intros Hk. unfold response_iteration.
  change (repeat (AWorker 0 (Response 200) 0) 7)
    with (repeat (AWorker 0 (Response 200) 0) 6 ++ [AWorker 0 (Response 200) 0]).
  rewrite run_app, worker_iteration by reflexivity.
  erewrite run_step.
  2:{ apply (worker_put_step _ 0 200 (Response 200) 0 (repeat (mkEvent 0 200 0) k));
      [reflexivity|reflexivity|rewrite repeat_length; exact Hk]. }
  simpl (run [] _). f_equal.
  apply St_ext; simpl; try reflexivity. f_equal. apply repeat_snoc.
Qed.

Lemma fill_run n k :
  (k + n <= queue_maxsize)%nat ->
  run (concat (repeat (response_iteration 0 200 0) n)) (filled_state k)
  = Some (filled_state (k + n)).
Proof.
  revert k. induction n as [|n IH]; intros k Hkn; cbn [repeat concat].
  - rewrite Nat.add_0_r. reflexivity.
  - rewrite run_app, response_iteration_filled by lia.
    rewrite IH by lia. now rewrite Nat.add_succ_r.
Qed.

Lemma stalled_run :
  run stalled_acts (send_load_init 1 true 0 0) =
  Some (set_worker 0 (WPut 200)
          (set_counters (S queue_maxsize) (S queue_maxsize) 0
             (filled_state queue_maxsize))).
Proof.
  unfold stalled_acts. rewrite run_app.
  change (send_load_init 1 true 0 0) with (filled_state 0).
  rewrite fill_run by lia. rewrite Nat.add_0_l.
  rewrite worker_iteration by reflexivity. reflexivity.
Qed.

Lemma is_success_spec c : is_success c = true <-> (200 <= c < 400).
Proof.
  unfold is_success. rewrite andb_true_iff, Z.leb_le, Z.ltb_lt. tauto.
Qed.

(** * The claims *)

(** C1: in every state of a run in which no worker holds [stats_lock] --
    that is, at every point where an observer holding the lock could look --
    [total_requests = successful_requests + failed_requests].  The lock
    makes each worker's update of the three counters one critical section
    (see [lock_inv]). *)
Theorem counters_consistent_unlocked (s : St) :
  reachable s -> s.(stats_lock) = None ->
  s.(total_requests) = (s.(successful_requests) + s.(failed_requests))%nat.
Proof.
  intros Hr Hk. destruct (lock_inv_reachable s Hr) as (_ & _ & H).
  unfold pending in H. rewrite Hk in H. lia.
Qed.

Lemma counters_consistent_unlocked_witness :
  exists s, run torn_read_acts (send_load_init 1 false 0 0) = Some s /\
            s.(stats_lock) = None /\
            s.(total_requests) = (s.(successful_requests) + s.(failed_requests))%nat.
Proof.
  eexists. split; [vm_compute; reflexivity|]. split; [reflexivity|].
  apply counters_consistent_unlocked; [|reflexivity].
  exists 1%nat, false, 0%Q, 0%Q, torn_read_acts. vm_compute. reflexivity.
Defined.

(** C2: one attempt of a worker (loop check, request, and its
    [with stats_lock:] block) adds exactly one to [total_requests], and one
    to [successful_requests] exactly when the request returned a response
    with status in [200, 400); otherwise -- any other status, or a raised
    [RequestException] -- it adds one to [failed_requests]. *)
Theorem attempt_classification (s : St) (tid : nat) (o : outcome) (t : Q) :
  s.(workers) !! tid = Some WLoop -> s.(running) = true ->
  s.(stats_lock) = None ->
  exists s', run (repeat (AWorker tid o t) 6) s = Some s' /\
    s'.(total_requests) = S s.(total_requests) /\
    ((s'.(successful_requests) = S s.(successful_requests) /\
      s'.(failed_requests) = s.(failed_requests) /\
      exists c, o = Response c /\ 200 <= c < 400)
     \/
     (s'.(successful_requests) = s.(successful_requests) /\
      s'.(failed_requests) = S s.(failed_requests) /\
      forall c, o = Response c -> ~ (200 <= c < 400))).
Proof.
  intros Hl Hr Hk. eexists. split; [apply worker_iteration; auto|].
  simpl. split; [reflexivity|].
  destruct o as [c|].
  - destruct (is_success c) eqn:E.
    + left. split; [reflexivity|]. split; [reflexivity|].
      exists c. split; [reflexivity|]. apply is_success_spec. exact E.
    + right. split; [reflexivity|]. split; [reflexivity|].
      intros c' [= <-] Hc. apply is_success_spec in Hc. congruence.
  - right. split; [reflexivity|]. split; [reflexivity|].
    intros c' Hc. discriminate.
Qed.

Lemma attempt_classification_witness :
  exists s', run (repeat (AWorker 0 (Response 404) 0) 6)
               (send_load_init 2 false 0 0) = Some s' /\
    s'.(total_requests) = 1%nat /\
    ((s'.(successful_requests) = 1%nat /\ s'.(failed_requests) = 0%nat /\
      exists c, Response 404 = Response c /\ 200 <= c < 400)
     \/
     (s'.(successful_requests) = 0%nat /\ s'.(failed_requests) = 1%nat /\
      forall c, Response 404 = Response c -> ~ (200 <= c < 400))).
Proof.
  apply (attempt_classification (send_load_init 2 false 0 0) 0 (Response 404) 0);
    reflexivity.
Defined.

(** C3: the final summary after a shutdown with no completed attempt.
    [final_rps] is guarded by [total_time > 0], but the two percentages
    divide by [total_requests] unguarded (line 150), so the report raises
    [ZeroDivisionError] instead of printing zero percentages. *)
Theorem final_report_zero_attempts (threads : nat) (detailed : bool)
    (t0 t1 end_time : Q) :
  final_report (handle_sigint (send_load_init threads detailed t0 t1)) end_time
  = PExc ZeroDivisionError.
Proof. reflexivity. Qed.

(** C8: over one run, every statement any thread executes after the reset
    in [send_load] leaves each of the three counters unchanged or larger:
    an earlier observation never exceeds a later one. *)
Theorem counters_monotone (threads : nat) (detailed : bool) (t0 t1 : Q)
    (acts1 acts2 : list action) (s1 s2 : St) :
  run acts1 (send_load_init threads detailed t0 t1) = Some s1 ->
  run acts2 s1 = Some s2 ->
  (s1.(total_requests) <= s2.(total_requests) /\
   s1.(successful_requests) <= s2.(successful_requests) /\
   s1.(failed_requests) <= s2.(failed_requests))%nat.
Proof. intros _ H. exact (run_counters_mono _ _ _ H). Qed.

Lemma counters_monotone_witness :
  exists s1 s2,
    run (firstn 7 torn_read_acts) (send_load_init 1 false 0 0) = Some s1 /\
    run (skipn 7 torn_read_acts) s1 = Some s2 /\
    (s1.(total_requests) <= s2.(total_requests) /\
     s1.(successful_requests) <= s2.(successful_requests) /\
     s1.(failed_requests) <= s2.(failed_requests))%nat.
Proof.
  do 2 eexists. split; [vm_compute; reflexivity|].
  split; [vm_compute; reflexivity|].
  apply (counters_monotone 1 false 0 0 (firstn 7 torn_read_acts)
           (skipn 7 torn_read_acts)); vm_compute; reflexivity.
Defined.

(** C10: an attempt whose request raises [RequestException] changes
    nothing but the counters -- [total_requests] and [failed_requests] go
    up by one -- so in particular it puts no event on [stats_queue], also
    in detailed mode. *)
Theorem request_exception_no_event (s : St) (tid : nat) (t : Q) :
  s.(workers) !! tid = Some WLoop -> s.(running) = true ->
  s.(stats_lock) = None ->
  run (repeat (AWorker tid RequestException t) 6) s =
  Some (set_counters (S s.(total_requests)) s.(successful_requests)
          (S s.(failed_requests)) s).
Proof.
  intros Hl Hr Hk. rewrite worker_iteration by auto. f_equal.
  unfold set_worker, set_counters. simpl.
  rewrite list_insert_id by exact Hl. reflexivity.
Qed.

Lemma request_exception_no_event_witness :
  run (repeat (AWorker 1 RequestException 0) 6) (send_load_init 2 true 0 0) =
  Some (set_counters 1 0 1 (send_load_init 2 true 0 0)).
Proof. apply (request_exception_no_event (send_load_init 2 true 0 0) 1 0); reflexivity. Defined.

(** C4, as the code has it: in detailed mode the event goes to
    [stats_queue] with a blocking [put].  Below [maxsize] the put appends
    the event and the worker returns to its loop head; at [maxsize] the
    worker waits, and since no thread ever takes from the queue it waits
    for the rest of the run, with the queue unchanged. *)
Theorem stats_queue_put_blocking (s : St) (tid : nat) (c : Z) (q : list event) :
  s.(workers) !! tid = Some (WPut c) -> s.(stats_queue) = Some q ->
  ((length q < queue_maxsize)%nat ->
   forall o t, step (AWorker tid o t) s =
     Some (set_worker tid WLoop (set_queue (Some (q ++ [mkEvent tid c t])) s))) /\
  ((queue_maxsize <= length q)%nat ->
   forall acts s', run acts s = Some s' ->
     s'.(workers) !! tid = Some (WPut c) /\ s'.(stats_queue) = Some q).
Proof.
  intros Hl Hq. split.
  - intros Hlt o t. apply worker_put_step; auto.
  - intros Hfull acts s' Hrun. eapply put_blocked_run; eauto.
Qed.

Lemma stats_queue_put_blocking_witness :
  step (AWorker 0 (Response 500) 7) put_ready_state =
  Some (set_worker 0 WLoop
          (set_queue (Some [mkEvent 0 500 7]) put_ready_state)).
Proof.
  apply (proj1 (stats_queue_put_blocking put_ready_state 0 500 []
                  eq_refl eq_refl)).
  apply Nat.ltb_lt. vm_compute. reflexivity.
Defined.

(** C4 fails: a single worker in detailed mode whose first 10000 requests
    get a 200 fills the queue; its next request is counted, and then its
    put blocks it for good -- the event is not dropped and the loop never
    resumes. *)
Lemma stats_queue_full_stalls_worker :
  exists s, run stalled_acts (send_load_init 1 true 0 0) = Some s /\
    s.(total_requests) = S queue_maxsize /\
    s.(workers) !! 0%nat = Some (WPut 200) /\
    forall acts s', run acts s = Some s' -> s'.(workers) !! 0%nat = Some (WPut 200).
Proof.
  exists (set_worker 0 (WPut 200)
            (set_counters (S queue_maxsize) (S queue_maxsize) 0
               (filled_state queue_maxsize))).
  split; [apply stalled_run|].
  split; [reflexivity|]. split; [reflexivity|].
  intros acts s' Hrun.
  eapply (put_blocked_run acts _ s' 0 200 (repeat (mkEvent 0 200 0) queue_maxsize)).
  4: exact Hrun.
  - reflexivity.
  - reflexivity.
  - rewrite repeat_length. lia.
Qed.

(** C5, as the code has it: in detailed mode every attempt that gets a
    response, whatever its status code, puts one event
    [(thread_id, status_code, time)] on the queue; an attempt that raises
    [RequestException] puts none. *)
Theorem response_event_enqueued (s : St) (tid : nat) (c : Z) (t : Q)
    (q : list event) :
  s.(workers) !! tid = Some WLoop -> s.(running) = true ->
  s.(stats_lock) = None -> s.(stats_queue) = Some q ->
  (length q < queue_maxsize)%nat ->
  (exists s', run (response_iteration tid c t) s = Some s' /\
     s'.(stats_queue) = Some (q ++ [mkEvent tid c t]) /\
     s'.(workers) !! tid = Some WLoop) /\
  (exists s', run (repeat (AWorker tid RequestException t) 6) s = Some s' /\
     s'.(stats_queue) = Some q /\ s'.(workers) !! tid = Some WLoop).
Proof.
  intros Hl Hr Hk Hq Hlt.
  assert (Hlen : (tid < length (workers s))%nat)
    by (eapply lookup_lt_Some; eauto).
  split.
  - unfold response_iteration.
    change (repeat (AWorker tid (Response c) t) 7)
      with (repeat (AWorker tid (Response c) t) 6 ++ [AWorker tid (Response c) t]).
    rewrite run_app, worker_iteration by auto.
    erewrite run_step.
    2:{ apply (worker_put_step _ tid c (Response c) t q).
        - simpl. rewrite list_lookup_insert_eq by lia. simpl. rewrite Hq.
          reflexivity.
        - exact Hq.
        - exact Hlt. }
    simpl (run [] _). eexists. split; [reflexivity|].
    split; [reflexivity|].
    simpl. rewrite list_lookup_insert_eq by (rewrite !length_insert; lia).
    reflexivity.
  - rewrite worker_iteration by auto. eexists. split; [reflexivity|].
    simpl. split; [exact Hq|].
    rewrite list_lookup_insert_eq by lia. reflexivity.
Qed.

Lemma response_event_enqueued_witness :
  (exists s', run (response_iteration 0 503 2) (send_load_init 1 true 0 0) = Some s' /\
     s'.(stats_queue) = Some ([] ++ [mkEvent 0 503 2]) /\
     s'.(workers) !! 0%nat = Some WLoop) /\
  (exists s', run (repeat (AWorker 0 RequestException 2) 6)
                (send_load_init 1 true 0 0) = Some s' /\
     s'.(stats_queue) = Some [] /\ s'.(workers) !! 0%nat = Some WLoop).
Proof.
  apply (response_event_enqueued (send_load_init 1 true 0 0) 0 503 2 []);
    try reflexivity.
  apply Nat.ltb_lt. vm_compute. reflexivity.
Defined.

(** C5 fails: a response with status 500 is counted as a failure and
    still puts an event on the queue. *)
Lemma failed_response_enqueued :
  exists s, run (response_iteration 0 500 5) (send_load_init 1 true 0 0) = Some s /\
    s.(successful_requests) = 0%nat /\ s.(failed_requests) = 1%nat /\
    s.(stats_queue) = Some [mkEvent 0 500 5].
Proof.
  eexists. split; [vm_compute; reflexivity|].
  split; [reflexivity|]. split; reflexivity.
Qed.

(** C6, as the code has it: [handle_sigint] stays installed for the whole
    run, so each of [n + 1] interrupts runs it again.  Every run of it sets
    [running] to false and leaves the counters, the lock, the queue, the
    threads and the reporter's locals as they were; each one also prints
    the shutdown notice, so [n + 1] interrupts leave [n + 1] notices. *)
Theorem sigint_repeated (s : St) (n : nat) :
  run (repeat ASigint (S n)) s =
  Some (mkSt s.(total_requests) s.(successful_requests) s.(failed_requests)
             s.(stats_lock) false s.(start_time) s.(stats_queue)
             s.(workers) s.(reporter) s.(last_total) s.(last_time)
             (s.(console) ++ repeat ShutdownNotice (S n))).
Proof.
  revert s. induction n as [|n IH]; intros s; [reflexivity|].
  change (run (repeat ASigint (S (S n))) s)
    with (run (repeat ASigint (S n)) (handle_sigint s)).
  rewrite IH. simpl. rewrite <- app_assoc. reflexivity.
Qed.

(** C6 fails: a second interrupt does not leave the process as one does --
    the shutdown notice is printed a second time. *)
Lemma second_sigint_prints_again :
  run [ASigint; ASigint] (send_load_init 1 false 0 0)
  <> run [ASigint] (send_load_init 1 false 0 0).
Proof. vm_compute. congruence. Qed.

(** C7: a reporter tick.  With [ct] the total read at line 61 at time
    [now], the tick reads [successful_requests], prints
    [(ct - last_total) / (now - last_time)] (0 when the interval is
    <= 0), [ct / (now - start_time)] (0 when that is <= 0) and
    [successful / ct * 100] (0 when [ct] is 0), and remembers [ct] and
    [now] as [last_total] and [last_time]. *)
Theorem reporter_tick_report (s : St) (now now' : Q) (ct : nat) :
  s.(reporter) = RReadSuccess now ct ->
  reporter_step now' s =
  Some (mkSt s.(total_requests) s.(successful_requests) s.(failed_requests)
          s.(stats_lock) s.(running) s.(start_time) s.(stats_queue)
          s.(workers) RLoop ct now
          (s.(console) ++
           [StatsLine ct
              (if Qle_bool (now - s.(last_time)) 0 then 0
               else inject_Z (Z.of_nat ct - Z.of_nat s.(last_total))
                    / (now - s.(last_time)))
              (if Qle_bool (now - s.(start_time)) 0 then 0
               else inject_Z (Z.of_nat ct) / (now - s.(start_time)))
              (if Nat.eqb ct 0 then 0
               else inject_Z (Z.of_nat s.(successful_requests))
                    / inject_Z (Z.of_nat ct) * 100)])%Q).
Proof.
  intros H. unfold reporter_step, stats_tick, py_gt. rewrite H. cbn zeta.
  destruct (Qle_bool (now - last_time s) 0);
    destruct (Qle_bool (now - start_time s) 0); destruct ct; reflexivity.
Qed.

Lemma reporter_tick_report_witness :
  reporter_step 9 tick_ready_state =
  Some (mkSt 0 0 0 None true 0 None [WLoop] RLoop 4 3
          [StatsLine 4
             (if Qle_bool (3 - 1) 0 then 0
              else inject_Z (Z.of_nat 4 - Z.of_nat 0) / (3 - 1))
             (if Qle_bool (3 - 0) 0 then 0 else inject_Z (Z.of_nat 4) / (3 - 0))
             (if Nat.eqb 4 0 then 0
              else inject_Z (Z.of_nat 0) / inject_Z (Z.of_nat 4) * 100)])%Q.
Proof. apply (reporter_tick_report tick_ready_state 3 9 4). reflexivity. Defined.

(** C9, as the code has it: the reporter reads the counters without
    [stats_lock], [total_requests] at line 61 and [successful_requests] at
    line 70.  What holds is that at every instant of a run the counters are
    within one unfinished update of each other, and that the total the
    reporter holds while it waits to read [successful_requests] is never
    larger than the current total -- it may be from an earlier instant. *)
Theorem counters_instant_bounds (s : St) :
  reachable s ->
  (s.(successful_requests) + s.(failed_requests) <= s.(total_requests) <=
   s.(successful_requests) + s.(failed_requests) + 1)%nat /\
  (forall now ct, s.(reporter) = RReadSuccess now ct ->
                  (ct <= s.(total_requests))%nat).
Proof.
  intros Hr. split.
  - destruct (lock_inv_reachable s Hr) as (_ & _ & H).
    pose proof (pending_le_1 s). lia.
  - apply reporter_inv_reachable. exact Hr.
Qed.

Lemma counters_instant_bounds_witness :
  exists s, run (firstn 9 torn_read_acts) (send_load_init 1 false 0 0) = Some s /\
    (s.(successful_requests) + s.(failed_requests) <= s.(total_requests) <=
     s.(successful_requests) + s.(failed_requests) + 1)%nat /\
    (forall now ct, s.(reporter) = RReadSuccess now ct ->
                    (ct <= s.(total_requests))%nat).
Proof.
  eexists. split; [vm_compute; reflexivity|].
  apply counters_instant_bounds.
  exists 1%nat, false, 0%Q, 0%Q, (firstn 9 torn_read_acts).
  vm_compute. reflexivity.
Defined.

(** C9 fails: the reporter reads a total of 1, worker 0 then completes a
    second successful request, and the reporter reads 2 successes -- the
    printed success rate is 200%, which no single instant of the run has
    (at every instant [successful_requests <= total_requests]). *)
Lemma torn_read_success_rate :
  exists s, run torn_read_acts (send_load_init 1 false 0 0) = Some s /\
    exists ct rps total_rps success_rate,
      In (StatsLine ct rps total_rps success_rate) s.(console) /\
      (100 < success_rate)%Q.
Proof.
  eexists. split; [vm_compute; reflexivity|].
  exists 1%nat, 1%Q, 1%Q, 200%Q. split.
  - vm_compute. left. reflexivity.
  - vm_compute. reflexivity.
Qed.
(** * Lemmas for the further properties *)

(** ** Invariants along runs *)

Lemma run_inv (Pa : action -> Prop) (P : St -> Prop) acts s s' :
  (forall a s0 s1, Pa a -> P s0 -> step a s0 = Some s1 -> P s1) ->
  Forall Pa acts -> P s -> run acts s = Some s' -> P s'.
Proof.
  intros Hstep Hacts. revert s.
  induction Hacts as [|a acts Ha Hacts IH]; simpl; intros s Hs Hrun.
  - congruence.
  - destruct (step a s) as [s1|] eqn:E; [|discriminate].
    eapply IH; [eapply Hstep|]; eauto.
Qed.

Lemma Forall_any (acts : list action) : Forall (fun _ => True) acts.
Proof. induction acts; constructor; auto. Qed.

Lemma run_inv0 (P : St -> Prop) acts s s' :
  (forall a s0 s1, P s0 -> step a s0 = Some s1 -> P s1) ->
  P s -> run acts s = Some s' -> P s'.
Proof.
  intros Hstep. apply (run_inv (fun _ => True)); [|apply Forall_any].
  intros a s0 s1 _. apply Hstep.
Qed.

Lemma reachable_inv (P : St -> Prop) s :
  (forall threads detailed t0 t1, P (send_load_init threads detailed t0 t1)) ->
  (forall a s0 s1, P s0 -> step a s0 = Some s1 -> P s1) ->
  reachable s -> P s.
Proof.
  intros H0 Hstep (threads & detailed & t0 & t1 & acts & Hrun).
  eapply run_inv0; [exact Hstep|apply H0|exact Hrun].
Qed.

(** ** Counting *)

Lemma count_pc_insert f ws i p p' :
  ws !! i = Some p ->
  (count_pc f (<[i:=p']> ws) + (if f p then 1 else 0)
   = count_pc f ws + (if f p' then 1 else 0))%nat.
Proof.
  revert i. induction ws as [|q ws IH]; intros [|i] H; simpl in *; try discriminate.
  - injection H as ->. destruct (f p), (f p'); lia.
  - specialize (IH i H). destruct (f q); lia.
Qed.

Lemma stats_lines_app c1 c2 :
  stats_lines (c1 ++ c2) = (stats_lines c1 + stats_lines c2)%nat.
Proof.
  induction c1 as [|[|ct rps trps sr] c1 IH]; simpl; rewrite ?IH; reflexivity.
Qed.

(** ** What a statement keeps *)

Lemma count_outcome_frame o s :
  (count_outcome o s).(workers) = s.(workers) /\
  (count_outcome o s).(stats_lock) = s.(stats_lock) /\
  (count_outcome o s).(total_requests) = s.(total_requests) /\
  (count_outcome o s).(stats_queue) = s.(stats_queue) /\
  (count_outcome o s).(running) = s.(running) /\
  (count_outcome o s).(console) = s.(console) /\
  (count_outcome o s).(reporter) = s.(reporter) /\
  (count_outcome o s).(last_total) = s.(last_total).
Proof.
  unfold count_outcome. destruct o as [c|]; [destruct (is_success c)|];
    repeat split.
Qed.

Lemma worker_step_keeps tid o t s s' :
  worker_step tid o t s = Some s' ->
  s'.(running) = s.(running) /\ s'.(console) = s.(console) /\
  s'.(last_total) = s.(last_total).
Proof.
  unfold worker_step.
  destruct (workers s !! tid) as [[| |o'|o'|o'|o'|c|]|]; try discriminate.
  all: try (destruct (stats_lock s); [discriminate|]).
  all: try (destruct (stats_queue s) as [q|]; [|discriminate];
            destruct (length q <? queue_maxsize)%nat; [|discriminate]).
  all: intros [= <-]; simpl.
  all: try (pose proof (count_outcome_frame o' s) as (_ & _ & _ & _ & ? & ? & _ & ?)).
  all: repeat split; congruence.
Qed.

Lemma step_running_false a s s' :
  s.(running) = false -> step a s = Some s' -> s'.(running) = false.
Proof.
  intros Hr. destruct a as [tid o t|now|]; simpl.
  - intros H. apply worker_step_keeps in H as (-> & _). exact Hr.
  - unfold reporter_step. destruct (reporter s); try discriminate;
      intros [= <-]; exact Hr.
  - intros [= <-]. reflexivity.
Qed.

Lemma step_queue a s s' :
  step a s = Some s' ->
  s'.(stats_queue) = s.(stats_queue) \/
  exists q e, s.(stats_queue) = Some q /\ (length q < queue_maxsize)%nat /\
              s'.(stats_queue) = Some (q ++ [e]).
Proof.
  destruct a as [tid o t|now|]; simpl.
  - intros H. apply worker_step_frame in H as (_ & _ & [H | (q & c & H1 & H2 & H3)]);
      [left; exact H|].
    right. exists q, (mkEvent tid c t). auto.
  - intros H. apply reporter_step_frame in H as (_ & _ & _ & _ & _ & H).
    left. exact H.
  - intros [= <-]. left. reflexivity.
Qed.

(** ** After shutdown *)

Lemma in_flight_step a s s' :
  s.(running) = false -> step a s = Some s' ->
  (s'.(total_requests) + in_flight s' <= s.(total_requests) + in_flight s)%nat.
Proof.
  intros Hr. destruct a as [tid o t|now|]; simpl.
  - unfold worker_step, in_flight.
    destruct (workers s !! tid) as [p|] eqn:Hl; [|discriminate].
    assert (Hc := fun p' => count_pc_insert before_count _ tid p p' Hl).
    destruct p as [| |o'|o'|o'|o'|c|]; try discriminate.
    + rewrite Hr. intros [= <-]. simpl. specialize (Hc WDone). simpl in Hc. lia.
    + intros [= <-]. simpl. specialize (Hc (WAcquire o)). simpl in Hc. lia.
    + destruct (stats_lock s); [discriminate|]. intros [= <-]. simpl.
      specialize (Hc (WIncTotal o')). simpl in Hc. lia.
    + intros [= <-]. simpl. specialize (Hc (WIncOutcome o')). simpl in Hc. lia.
    + intros [= <-]. pose proof (count_outcome_frame o' s) as (Hw & _ & Ht & _).
      simpl. rewrite Hw, Ht. specialize (Hc (WRelease o')). simpl in Hc. lia.
    + intros [= <-]. simpl. specialize (Hc (after_release (stats_queue s) o')).
      destruct o' as [c|]; [destruct (stats_queue s)|]; simpl in Hc |- *; lia.
    + destruct (stats_queue s) as [q|]; [|discriminate].
      destruct (length q <? queue_maxsize)%nat; [|discriminate].
      intros [= <-]. simpl. specialize (Hc WLoop). simpl in Hc. lia.
  - intros H. apply reporter_step_frame in H as (Hw & _ & Ht & _).
    unfold in_flight. rewrite Hw, Ht. lia.
  - intros [= <-]. unfold in_flight. simpl. lia.
Qed.

Lemma reporter_tick_step a s s' :
  s.(running) = false -> step a s = Some s' ->
  (stats_lines s'.(console) + reporter_in_tick s'.(reporter)
   <= stats_lines s.(console) + reporter_in_tick s.(reporter))%nat.
Proof.
  intros Hr. destruct a as [tid o t|now|]; simpl.
  - intros H. pose proof H as H'. apply worker_step_keeps in H' as (_ & -> & _).
    apply worker_step_frame in H as (_ & -> & _). lia.
  - unfold reporter_step. destruct (reporter s); try discriminate;
      intros [= <-]; simpl.
    + rewrite Hr. simpl. lia.
    + lia.
    + lia.
    + rewrite stats_lines_app. simpl. lia.
  - intros [= <-]. simpl. rewrite stats_lines_app. simpl. lia.
Qed.

(** ** Rationals *)

Lemma inject_Z_nonneg z : (0 <= z)%Z -> (0 <= inject_Z z)%Q.
Proof. intros H. unfold Qle. simpl. lia. Qed.

Lemma Qdiv_nonneg a b : (0 <= a)%Q -> (0 <= b)%Q -> (0 <= a / b)%Q.
Proof.
  intros Ha Hb. unfold Qdiv. apply Qmult_le_0_compat; [exact Ha|].
  apply Qinv_le_0_compat. exact Hb.
Qed.

Lemma py_gt_0 a : py_gt a 0 = true -> (0 <= a)%Q.
Proof.
  unfold py_gt. destruct (Qle_bool a 0) eqn:E; [discriminate|]. intros _.
  apply Qlt_le_weak, Qnot_le_lt. intros Hle. apply Qle_bool_iff in Hle.
  congruence.
Qed.

Lemma stats_tick_nonneg st lt lti now ct cs rps trps sr :
  (lt <= ct)%nat -> stats_tick st lt lti now ct cs = (rps, trps, sr) ->
  (0 <= rps /\ 0 <= trps /\ 0 <= sr)%Q.
Proof.
  intros Hle. unfold stats_tick. intros [= <- <- <-]. split; [|split].
  - destruct (py_gt _ 0) eqn:E; [|apply Qle_refl].
    apply Qdiv_nonneg; [apply inject_Z_nonneg; lia|apply py_gt_0; exact E].
  - destruct (py_gt _ 0) eqn:E; [|apply Qle_refl].
    apply Qdiv_nonneg; [apply inject_Z_nonneg; lia|apply py_gt_0; exact E].
  - destruct (0 <? ct)%nat; [|apply Qle_refl].
    apply Qmult_le_0_compat; [apply Qdiv_nonneg; apply inject_Z_nonneg; lia|].
    unfold Qle. simpl. lia.
Qed.



(** ** Invariant steps *)

Lemma queue_counted_step a s s' :
  queue_counted s -> step a s = Some s' -> queue_counted s'.
Proof.
  unfold queue_counted. intros HP. destruct a as [tid o t|now|]; simpl.
  - unfold worker_step.
    destruct (workers s !! tid) as [p|] eqn:Hl; [|discriminate].
    assert (Hc := fun p' => count_pc_insert owes_event _ tid p p' Hl).
    destruct p as [| |o'|o'|o'|o'|c|]; try discriminate.
    + intros [= <-]. simpl. destruct (stats_queue s); [|exact I].
      specialize (Hc (if running s then WGet else WDone)).
      destruct (running s); simpl in Hc; lia.
    + intros [= <-]. simpl. destruct (stats_queue s); [|exact I].
      specialize (Hc (WAcquire o)). simpl in Hc. lia.
    + destruct (stats_lock s); [discriminate|]. intros [= <-]. simpl.
      destruct (stats_queue s); [|exact I].
      specialize (Hc (WIncTotal o')). simpl in Hc. lia.
    + intros [= <-]. simpl. destruct (stats_queue s); [|exact I].
      specialize (Hc (WIncOutcome o')). destruct o'; simpl in Hc; lia.
    + intros [= <-].
      pose proof (count_outcome_frame o' s) as (Hw & _ & Ht & Hq & _).
      simpl. rewrite Hw, Ht, Hq. destruct (stats_queue s); [|exact I].
      specialize (Hc (WRelease o')). destruct o'; simpl in Hc; lia.
    + intros [= <-]. simpl. destruct (stats_queue s); [|exact I].
      specialize (Hc (after_release (Some l) o')).
      destruct o'; simpl in Hc |- *; lia.
    + destruct (stats_queue s) as [q|]; [|discriminate].
      destruct (length q <? queue_maxsize)%nat; [|discriminate].
      intros [= <-]. simpl. rewrite length_app. simpl.
      specialize (Hc WLoop). simpl in Hc. lia.
  - intros H. apply reporter_step_frame in H as (-> & _ & -> & _ & _ & ->).
    exact HP.
  - intros [= <-]. exact HP.
Qed.

Lemma printed_inv_step a s s' :
  printed_inv s -> step a s = Some s' -> printed_inv s'.
Proof.
  intros (H1 & H2 & H3) Hstep.
  pose proof (step_counters_mono _ _ _ Hstep) as [Ht _].
  destruct a as [tid o t|now|]; simpl in Hstep.
  - pose proof Hstep as Hk. apply worker_step_keeps in Hk as (_ & Hc & Hl).
    apply worker_step_frame in Hstep as (_ & Hr & _).
    split; [|split].
    + lia.
    + intros now ct E. rewrite Hr in E. specialize (H2 _ _ E). lia.
    + rewrite Hc. exact H3.
  - unfold reporter_step in Hstep. destruct (reporter s) eqn:Er; try discriminate.
    + injection Hstep as <-. split; [exact H1|]. split; [|exact H3].
      simpl. destruct (running s); discriminate.
    + injection Hstep as <-. split; [exact H1|]. split; [|exact H3].
      discriminate.
    + injection Hstep as <-. split; [exact H1|]. split; [|exact H3].
      simpl. intros now' ct [= _ <-]. lia.
    + specialize (H2 _ _ eq_refl) as Hct.
      destruct (stats_tick _ _ _ _ _ _) as [[rps trps] sr] eqn:Et.
      injection Hstep as <-. unfold printed_inv. simpl.
      split; [lia|]. split; [discriminate|].
      apply Forall_app; split; [exact H3|]. constructor; [|constructor].
      eapply stats_tick_nonneg; [|exact Et]. lia.
  - injection Hstep as <-. split; [exact H1|]. split; [exact H2|].
    apply Forall_app; split; [exact H3|]. constructor; [exact I|constructor].
Qed.

Lemma served_step a s s' :
  served_by_do_GET a -> served_inv s -> step a s = Some s' -> served_inv s'.
Proof.
  intros Ha [Hf Hw]. unfold served_inv. destruct a as [tid o t|now|]; simpl.
  - destruct Ha as (ip & path & tm & host & Ho). cbn in Ho. subst o.
    unfold worker_step.
    destruct (workers s !! tid) as [p|] eqn:Hl; [|discriminate].
    pose proof (Forall_lookup_1 _ _ _ _ Hw Hl) as Hp.
    destruct p as [| |o'|o'|o'|o'|c|]; try discriminate.
    + intros [= <-]. split; [exact Hf|]. apply Forall_insert; [exact Hw|].
      destruct (running s); reflexivity.
    + intros [= <-]. split; [exact Hf|]. apply Forall_insert; [exact Hw|reflexivity].
    + destruct (stats_lock s); [discriminate|]. intros [= <-].
      split; [exact Hf|]. apply Forall_insert; [exact Hw|exact Hp].
    + intros [= <-]. split; [exact Hf|]. apply Forall_insert; [exact Hw|exact Hp].
    + intros [= <-]. destruct o' as [c|]; [|discriminate]. simpl in Hp.
      unfold count_outcome. rewrite Hp.
      split; [exact Hf|]. apply Forall_insert; [exact Hw|exact Hp].
    + intros [= <-]. split; [exact Hf|]. apply Forall_insert; [exact Hw|].
      destruct o'; [destruct (stats_queue s)|]; reflexivity.
    + destruct (stats_queue s) as [q|]; [|discriminate].
      destruct (length q <? queue_maxsize)%nat; [|discriminate].
      intros [= <-]. split; [exact Hf|]. apply Forall_insert; [exact Hw|reflexivity].
  - intros H. apply reporter_step_frame in H as (-> & _ & _ & _ & -> & _).
    split; assumption.
  - intros [= <-]. split; assumption.
Qed.

(** * Further properties *)

(** X1: [with stats_lock:] is a mutual exclusion: in every state of a run,
    two workers inside the critical section are the same worker, and it
    holds the lock. *)
Theorem lock_mutual_exclusion (s : St) (i j : nat) (p q : wpc) :
  reachable s -> s.(workers) !! i = Some p -> in_cs p = true ->
  s.(workers) !! j = Some q -> in_cs q = true ->
  i = j /\ s.(stats_lock) = Some i.
Proof.
  intros Hr Hi Hp Hj Hq. destruct (lock_inv_reachable s Hr) as (H1 & _ & _).
  pose proof (H1 _ _ Hi Hp). pose proof (H1 _ _ Hj Hq). split; congruence.
Qed.

Lemma lock_mutual_exclusion_witness :
  exists s, run (repeat (AWorker 1 (Response 200) 0) 3)
              (send_load_init 2 false 0 0) = Some s /\
    1%nat = 1%nat /\ s.(stats_lock) = Some 1%nat.
Proof.
  eexists. split; [vm_compute; reflexivity|].
  eapply (lock_mutual_exclusion _ 1 1 (WIncTotal (Response 200))
           (WIncTotal (Response 200))); try reflexivity.
  exists 2%nat, false, 0%Q, 0%Q, (repeat (AWorker 1 (Response 200) 0) 3).
  vm_compute. reflexivity.
Defined.

(** X2: in detailed mode the queue never holds more than [maxsize] events. *)
Theorem stats_queue_bounded (s : St) (q : list event) :
  reachable s -> s.(stats_queue) = Some q -> (length q <= queue_maxsize)%nat.
Proof.
  intros Hr. revert q. pattern s. apply reachable_inv; [| |exact Hr].
  - intros threads [] t0 t1 q; simpl; intros [= <-]; simpl. unfold queue_maxsize. lia.
  - intros a s0 s1 H0 Hs q Hq.
    destruct (step_queue _ _ _ Hs) as [E | (q0 & e & E0 & Hlt & E1)].
    + rewrite E in Hq. exact (H0 q Hq).
    + rewrite E1 in Hq. injection Hq as <-. rewrite length_app. simpl. lia.
Qed.

Lemma stats_queue_bounded_witness :
  exists s, run (response_iteration 0 200 0) (send_load_init 1 true 0 0) = Some s /\
    s.(stats_queue) = Some [mkEvent 0 200 0] /\
    (length [mkEvent 0 200 0] <= queue_maxsize)%nat.
Proof.
  eexists. split; [vm_compute; reflexivity|].
  match goal with
  | |- stats_queue ?s = _ /\ _ =>
      split; [reflexivity|]; apply (stats_queue_bounded s [mkEvent 0 200 0]);
      [|reflexivity]
  end.
  exists 1%nat, true, 0%Q, 0%Q, (response_iteration 0 200 0).
  vm_compute. reflexivity.
Defined.

(** X3: every event on the queue is for a request already counted: the
    queue never holds more events than [total_requests]. *)
Theorem stats_queue_counted (s : St) (q : list event) :
  reachable s -> s.(stats_queue) = Some q -> (length q <= s.(total_requests))%nat.
Proof.
  intros Hr Hq.
  assert (H : queue_counted s).
  { apply reachable_inv; [|exact queue_counted_step|exact Hr].
    intros threads [] t0 t1; unfold queue_counted; simpl; [|exact I].
    induction threads as [|n IH]; simpl in *; lia. }
  unfold queue_counted in H. rewrite Hq in H. lia.
Qed.

Lemma stats_queue_counted_witness :
  exists s, run (response_iteration 0 503 0) (send_load_init 1 true 0 0) = Some s /\
    s.(stats_queue) = Some [mkEvent 0 503 0] /\
    (length [mkEvent 0 503 0] <= s.(total_requests))%nat.
Proof.
  eexists. split; [vm_compute; reflexivity|]. split; [reflexivity|].
  eapply (stats_queue_counted _ [mkEvent 0 503 0]); [|reflexivity].
  exists 1%nat, true, 0%Q, 0%Q, (response_iteration 0 503 0).
  vm_compute. reflexivity.
Defined.

(** X4: no statement of the client takes anything out of [stats_queue]:
    along any run the queue only grows at its end. *)
Theorem stats_queue_append_only (acts : list action) (s s' : St) (q : list event) :
  run acts s = Some s' -> s.(stats_queue) = Some q ->
  exists q', s'.(stats_queue) = Some (q ++ q').
Proof.
  revert s q. induction acts as [|a acts IH]; simpl; intros s q Hrun Hq.
  - injection Hrun as <-. exists []. rewrite app_nil_r. exact Hq.
  - destruct (step a s) as [s1|] eqn:E; [|discriminate].
    destruct (step_queue _ _ _ E) as [H | (q0 & e & H1 & _ & H3)].
    + rewrite Hq in H. exact (IH s1 q Hrun H).
    + rewrite Hq in H1. injection H1 as <-.
      destruct (IH s1 _ Hrun H3) as [q' Hq']. exists (e :: q').
      rewrite Hq', <- app_assoc. reflexivity.
Qed.

Lemma stats_queue_append_only_witness :
  exists s', run (response_iteration 0 200 4 ++ response_iteration 0 404 5)
               (send_load_init 1 true 0 0) = Some s' /\
    exists q', s'.(stats_queue) = Some ([] ++ q').
Proof.
  eexists. split; [vm_compute; reflexivity|].
  apply (stats_queue_append_only
           (response_iteration 0 200 4 ++ response_iteration 0 404 5)
           (send_load_init 1 true 0 0)); [vm_compute; reflexivity|reflexivity].
Defined.

(** X5: once [running] is false it stays false, no worker starts a new
    request, and [total_requests] grows by at most the number of workers
    that had already passed [while running] without counting their
    request. *)
Theorem shutdown_bounds_new_requests (s : St) (acts : list action) (s' : St) :
  s.(running) = false -> run acts s = Some s' ->
  s'.(running) = false /\ (in_flight s' <= in_flight s)%nat /\
  (s'.(total_requests) <= s.(total_requests) + in_flight s)%nat.
Proof.
  intros Hr Hrun.
  assert (H : s'.(running) = false /\
              (s'.(total_requests) + in_flight s'
               <= s.(total_requests) + in_flight s)%nat).
  { apply (run_inv0 (fun x => x.(running) = false /\
             (x.(total_requests) + in_flight x
              <= s.(total_requests) + in_flight s)%nat) acts s s');
      [|split; [exact Hr|lia]|exact Hrun].
    intros a s0 s1 [H0 H1] Hs. split; [eapply step_running_false; eauto|].
    pose proof (in_flight_step a s0 s1 H0 Hs). lia. }
  pose proof (run_counters_mono _ _ _ Hrun) as [Ht _].
  destruct H as [H1 H2]. split; [exact H1|]. lia.
Qed.

Lemma shutdown_bounds_new_requests_witness :
  exists s s', run [AWorker 0 (Response 200) 0; ASigint]
                 (send_load_init 2 false 0 0) = Some s /\
    run (repeat (AWorker 0 (Response 200) 0) 6 ++ [AWorker 1 (Response 200) 0]) s
      = Some s' /\
    s'.(running) = false /\ (in_flight s' <= in_flight s)%nat /\
    (s'.(total_requests) <= s.(total_requests) + in_flight s)%nat.
Proof.
  do 2 eexists. split; [vm_compute; reflexivity|].
  split; [vm_compute; reflexivity|].
  eapply (shutdown_bounds_new_requests _
           (repeat (AWorker 0 (Response 200) 0) 6 ++ [AWorker 1 (Response 200) 0]));
    [reflexivity|vm_compute; reflexivity].
Defined.

(** X6: once [running] is false the reporter prints at most one more status
    line -- the one of the tick it is in, if any. *)
Theorem shutdown_reporter_last_line (s : St) (acts : list action) (s' : St) :
  s.(running) = false -> run acts s = Some s' ->
  (stats_lines s'.(console)
   <= stats_lines s.(console) + reporter_in_tick s.(reporter) <=
   stats_lines s.(console) + 1)%nat.
Proof.
  intros Hr Hrun.
  assert (H : s'.(running) = false /\
              (stats_lines s'.(console) + reporter_in_tick s'.(reporter)
               <= stats_lines s.(console) + reporter_in_tick s.(reporter))%nat).
  { apply (run_inv0 (fun x => x.(running) = false /\
             (stats_lines x.(console) + reporter_in_tick x.(reporter)
              <= stats_lines s.(console) + reporter_in_tick s.(reporter))%nat)
             acts s s'); [|split; [exact Hr|lia]|exact Hrun].
    intros a s0 s1 [H0 H1] Hs. split; [eapply step_running_false; eauto|].
    pose proof (reporter_tick_step a s0 s1 H0 Hs). lia. }
  assert (reporter_in_tick s.(reporter) <= 1)%nat
    by (destruct (reporter s); simpl; lia).
  lia.
Qed.

Lemma shutdown_reporter_last_line_witness :
  exists s s', run [AReporter 0; ASigint] (send_load_init 1 false 0 0) = Some s /\
    run [AReporter 1; AReporter 1; AReporter 2; AReporter 3] s = Some s' /\
    (stats_lines s'.(console)
     <= stats_lines s.(console) + reporter_in_tick s.(reporter) <=
     stats_lines s.(console) + 1)%nat.
Proof.
  do 2 eexists. split; [vm_compute; reflexivity|].
  split; [vm_compute; reflexivity|].
  eapply (shutdown_reporter_last_line _ [AReporter 1; AReporter 1; AReporter 2; AReporter 3]);
    [reflexivity|vm_compute; reflexivity].
Defined.




(** X9: every status line the reporter prints has a non-negative request
    rate, average rate and success rate, whatever the clock returns: the
    total it remembers is never larger than the next total it reads. *)
Theorem status_lines_nonneg (s : St) :
  reachable s -> Forall line_nonneg s.(console).
Proof.
  intros Hr.
  assert (H : printed_inv s).
  { apply reachable_inv; [|exact printed_inv_step|exact Hr].
    intros threads detailed t0 t1. split; [simpl; lia|].
    split; [discriminate|constructor]. }
  exact (proj2 (proj2 H)).
Qed.

Lemma status_lines_nonneg_witness :
  exists s, run (torn_read_acts ++ [AReporter 0; AReporter 0; AReporter 0; AReporter 0])
              (send_load_init 1 false 0 0) = Some s /\
    Forall line_nonneg s.(console).
Proof.
  eexists. split; [vm_compute; reflexivity|].
  apply status_lines_nonneg.
  exists 1%nat, false, 0%Q, 0%Q,
    (torn_read_acts ++ [AReporter 0; AReporter 0; AReporter 0; AReporter 0]).
  vm_compute. reflexivity.
Defined.

(** X10: when the number of successes a tick reads is at most the total it
    read, the printed success rate lies between 0 and 100. *)
Theorem success_rate_bounded (start_t : Q) (last_tot : nat) (last_t now : Q)
    (current_total successful : nat) (rps total_rps success_rate : Q) :
  (successful <= current_total)%nat ->
  stats_tick start_t last_tot last_t now current_total successful
  = (rps, total_rps, success_rate) ->
  (0 <= success_rate <= 100)%Q.
Proof.
  intros Hle. unfold stats_tick. intros [= _ _ <-].
  destruct (0 <? current_total)%nat eqn:E;
    [|split; [apply Qle_refl|unfold Qle; simpl; lia]].
  apply Nat.ltb_lt in E. split.
  - apply Qmult_le_0_compat; [apply Qdiv_nonneg; apply inject_Z_nonneg; lia|].
    unfold Qle. simpl. lia.
  - rewrite <- (Qmult_1_l 100) at 2.
    apply Qmult_le_compat_r; [|unfold Qle; simpl; lia].
    apply Qle_shift_div_r; [unfold Qlt; simpl; lia|].
    rewrite Qmult_1_l. rewrite <- Zle_Qle. lia.
Qed.

Lemma success_rate_bounded_witness :
  exists rps total_rps success_rate,
    stats_tick 0 0 0 2 3 2 = (rps, total_rps, success_rate) /\
    (0 <= success_rate <= 100)%Q.
Proof.
  do 3 eexists. split; [reflexivity|].
  eapply (success_rate_bounded 0 0 0 2 3 2); [lia|reflexivity].
Defined.

(** X11: against the server of http-server.py -- every request returns the
    response [do_GET] sends -- no attempt is ever counted as failed, and
    whenever the lock is free every counted attempt is a success. *)
Theorem do_GET_responses_never_fail (threads : nat) (detailed : bool) (t0 t1 : Q)
    (acts : list action) (s : St) :
  Forall served_by_do_GET acts ->
  run acts (send_load_init threads detailed t0 t1) = Some s ->
  s.(failed_requests) = 0%nat /\
  (s.(stats_lock) = None -> s.(successful_requests) = s.(total_requests)).
Proof.
  intros Hacts Hrun.
  assert (HP : served_inv s).
  { apply (run_inv served_by_do_GET served_inv acts
             (send_load_init threads detailed t0 t1) s served_step Hacts);
      [|exact Hrun].
    split; [reflexivity|]. apply Forall_replicate. reflexivity. }
  destruct HP as [Hf _]. split; [exact Hf|].
  intros Hk.
  destruct (lock_inv_run _ _ _ (lock_inv_init threads detailed t0 t1) Hrun)
    as (_ & _ & H).
  unfold pending in H. rewrite Hk in H. lia.
Qed.

Lemma do_GET_responses_never_fail_witness :
  exists s, run (repeat (AWorker 0 (Response 200) 0) 6 ++ [AReporter 0; ASigint])
              (send_load_init 1 true 0 0) = Some s /\
    s.(failed_requests) = 0%nat /\
    (s.(stats_lock) = None -> s.(successful_requests) = s.(total_requests)).
Proof.
  eexists. split; [vm_compute; reflexivity|].
  apply (do_GET_responses_never_fail 1 true 0 0
           (repeat (AWorker 0 (Response 200) 0) 6 ++ [AReporter 0; ASigint]));
    [|vm_compute; reflexivity].
  cbn [repeat app].
  repeat (constructor;
          [exists "10.0.0.7"%string, "/"%string, "2026-10-18 12:00:00"%string,
             "server"%string; reflexivity|]).
  repeat constructor.
Defined.
